(** * ang-jsoneditor: the options model of [jsoneditoroptions.ts]

    The source file consists of type declarations (type aliases,
    interfaces, the members of the class [JsonEditorOptions]) and of one
    piece of executable code, the parameterless constructor of that class.

    - [Module JS]: JavaScript values and objects as property maps.
    - [Module TS]: the type declarations of the file, transcribed as data,
      and what it means for a value to conform to a declared type.
    - [Module Options]: the constructor, object allocation, the public
      field writes of the host.
    - [Module Registry]: the defaulting engine and the mode-applicability
      lookup of the specification, which the source does not contain. *)

From stdpp Require Import base gmap strings list fin_maps.

Open Scope string_scope.

(* ===================================================================== *)
(** ** JavaScript values *)
(* ===================================================================== *)

Module JS.

(** Run-time values.  Numbers are kept as integers: the only number
    literals of the source are [2] and [100], and path segments are array
    indices.  Functions and host objects (DOM elements, events) are opaque
    and told apart by an identifier.  A promise is represented by what it
    is fulfilled with, if it ever is. *)
#[local] Unset Elimination Schemes.

Inductive jsval : Type :=
| JUndefined
| JNull
| JBool (b : bool)
| JNum (n : Z)
| JStr (s : string)
| JArr (elems : list jsval)
| JObj (props : list (string * jsval))
| JFun (id : nat)
| JHost (id : nat)
| JPromise (fulfilled : option jsval).

#[local] Set Elimination Schemes.

(** [v === undefined] *)
Definition is_undefined (v : jsval) : bool :=
  match v with JUndefined => true | _ => false end.

(** [a === b] for two strings; anything else is not compared here. *)
Definition same_string (a b : jsval) : bool :=
  match a, b with
  | JStr x, JStr y => String.eqb x y
  | _, _ => false
  end.

(** Lookup in a list of properties, whose keys are meant to be distinct:
    the first binding of the key is read. *)
Fixpoint assoc {A : Type} (k : string) (l : list (string * A)) : option A :=
  match l with
  | [] => None
  | (k', a) :: rest => if String.eqb k k' then Some a else assoc k rest
  end.

(** A class instance: its own properties.  Reading a property that was
    never written gives [undefined]. *)
Abbreviation obj := (gmap string jsval).

Definition get_prop (o : obj) (k : string) : jsval :=
  default JUndefined (o !! k).

(** [this.k = v] *)
Definition set_prop (k : string) (v : jsval) (this : obj) : obj :=
  <[k := v]> this.

End JS.

Import JS.

(* ===================================================================== *)
(** ** The type declarations of the file *)
(* ===================================================================== *)

Module TS.

(** Type expressions, as far as the file uses them. *)
#[local] Unset Elimination Schemes.

Inductive ty : Type :=
| TAny
| TVoid
| TNull
| TString
| TNumber
| TBoolean
| TObject                                          (* the keyword [object] *)
| TLit (s : string)                                (* a string literal type *)
| TRef (name : string)                             (* a type named elsewhere *)
| TArray (elem : ty)                               (* [Array<T>], [T[]] *)
| TPromise (result : ty)                           (* [Promise<T>] *)
| TUnion (alts : list ty)                          (* [A | B | ...] *)
| TFun (params : list (string * ty)) (ret : ty)    (* [(x: A, ...) => R] *)
| TShape (members : list (string * (bool * ty))).  (* [{ k: A; k'?: B }] *)

#[local] Set Elimination Schemes.

(** A required member [k: T] and an optional member [k?: T]. *)
Definition req (k : string) (t : ty) : string * (bool * ty) := (k, (false, t)).
Definition opt (k : string) (t : ty) : string * (bool * ty) := (k, (true, t)).

Definition JsonEditorMode : ty :=
  TUnion [TLit "tree"; TLit "view"; TLit "form"; TLit "text"; TLit "code";
          TLit "preview"].

Definition JsonEditorNodePath : ty := TArray (TUnion [TString; TNumber]).

Definition JsonEditorNode : ty :=
  TShape [ req "field" TString;
           req "path" (TRef "JsonEditorNodePath");
           req "value" (TRef "JSON") ].

Definition JsonEditorNodeNameArgs : ty :=
  TShape [ req "path" (TRef "JsonEditorNodePath");
           req "size" TNumber;
           req "type" (TUnion [TLit "object"; TLit "array"]) ].

Definition JsonEditorValidationError : ty :=
  TShape [ req "path" (TRef "JsonEditorNodePath");
           req "message" TString ].

Definition JsonEditorSeparatorContextMenuItem : ty :=
  TShape [ req "type" (TLit "separator") ].

Definition JsonEditorButtonContextMenuItem : ty :=
  TShape [ opt "title" TString;
           opt "submenuTitle" TString;
           req "className" TString;
           req "text" TString;
           opt "submenu" (TArray (TRef "JsonEditorContextMenuItem"));
           opt "click" (TFun [] TVoid) ].

Definition JsonEditorContextMenuItem : ty :=
  TUnion [ TRef "JsonEditorSeparatorContextMenuItem";
           TRef "JsonEditorButtonContextMenuItem" ].

Definition JsonEditorContextMenuNode : ty :=
  TShape [ req "type" (TUnion [TLit "single"; TLit "multiple"; TLit "append"]);
           req "path" (TRef "JsonEditorNodePath");
           req "paths" (TArray (TRef "JsonEditorNodePath")) ].

Definition JsonEditorTextPosition : ty :=
  TShape [ req "row" TNumber; req "column" TNumber ].

Definition JsonEditorSerializableNode : ty :=
  TShape [ req "value" (TRef "JSON");
           req "path" (TRef "JsonEditorNodePath") ].

Definition JsonEditorQueryOptions : ty :=
  TShape [ opt "filter"
             (TShape [ req "field" (TUnion [TString; TLit "@"]);
                       req "relation"
                         (TUnion [TLit "=="; TLit "!="; TLit "<"; TLit "<=";
                                  TLit ">"; TLit ">="]);
                       req "value" TString ]);
           opt "sort"
             (TShape [ req "field" (TUnion [TString; TLit "@"]);
                       req "direction" (TUnion [TLit "asc"; TLit "desc"]) ]);
           opt "projection"
             (TShape [ req "fields" (TArray TString) ]) ].

Definition JsonEditorTreeNode : ty := TRef "JsonEditorNode".
Definition IError : ty := TRef "JsonEditorValidationError".

(** The exported names of the file.  [JSON], [Event] and [HTMLElement]
    are ambient: the file names them and does not declare them. *)
Definition declarations : list (string * ty) :=
  [ ("JsonEditorMode", JsonEditorMode);
    ("JsonEditorNodePath", JsonEditorNodePath);
    ("JsonEditorNode", JsonEditorNode);
    ("JsonEditorNodeNameArgs", JsonEditorNodeNameArgs);
    ("JsonEditorValidationError", JsonEditorValidationError);
    ("JsonEditorSeparatorContextMenuItem", JsonEditorSeparatorContextMenuItem);
    ("JsonEditorButtonContextMenuItem", JsonEditorButtonContextMenuItem);
    ("JsonEditorContextMenuItem", JsonEditorContextMenuItem);
    ("JsonEditorContextMenuNode", JsonEditorContextMenuNode);
    ("JsonEditorTextPosition", JsonEditorTextPosition);
    ("JsonEditorSerializableNode", JsonEditorSerializableNode);
    ("JsonEditorQueryOptions", JsonEditorQueryOptions);
    ("JsonEditorTreeNode", JsonEditorTreeNode);
    ("IError", IError) ].

(** The members of [class JsonEditorOptions], in the order of the file.
    All are [public] and none has an initialiser. *)
Definition JsonEditorOptions_members : list (string * ty) :=
  [ ("ace", TObject);
    ("ajv", TObject);
    ("onChange", TFun [] TVoid);
    ("onChangeJSON", TFun [("json", TRef "JSON")] TVoid);
    ("onChangeText", TFun [("jsonString", TString)] TVoid);
    ("onClassName", TFun [("node", TRef "JsonEditorNode")] TString);
    ("onEditable",
       TFun [("node", TRef "JsonEditorNode")]
            (TUnion [TBoolean;
                     TShape [req "field" TBoolean; req "value" TBoolean]]));
    ("onError", TFun [("error", TAny)] TVoid);
    ("onModeChange",
       TFun [("newMode", TRef "JsonEditorMode");
             ("oldMode", TRef "JsonEditorMode")] TVoid);
    ("onNodeName", TFun [("args", TRef "JsonEditorNodeNameArgs")] TString);
    ("onValidate",
       TFun [("json", TRef "JSON")]
            (TUnion [TArray (TRef "JsonEditorValidationError");
                     TPromise (TArray (TRef "JsonEditorValidationError"))]));
    ("onValidationError",
       TFun [("errors", TArray (TRef "JsonEditorValidationError"))] TVoid);
    ("onCreateMenu",
       TFun [("items", TArray (TRef "JsonEditorContextMenuItem"));
             ("node", TRef "JsonEditorContextMenuNode")] TVoid);
    ("escapeUnicode", TBoolean);
    ("sortObjectKeys", TBoolean);
    ("history", TBoolean);
    ("mode", TRef "JsonEditorMode");
    ("modes", TArray (TRef "JsonEditorMode"));
    ("name", TString);
    ("schema", TObject);
    ("schemaRefs", TObject);
    ("search", TBoolean);
    ("indentation", TNumber);
    ("theme", TNumber);
    ("templates", TObject);
    ("autocomplete", TObject);
    ("mainMenuBar", TBoolean);
    ("navigationBar", TBoolean);
    ("statusBar", TBoolean);
    ("onTextSelectionChange",
       TFun [("start", TRef "JsonEditorTextPosition");
             ("end", TRef "JsonEditorTextPosition");
             ("text", TString)] TVoid);
    ("onSelectionChange",
       TFun [("start", TRef "JsonEditorSerializableNode");
             ("end", TRef "JsonEditorSerializableNode")] TVoid);
    ("onEvent",
       TFun [("node", TRef "JsonEditorNode"); ("event", TRef "Event")] TVoid);
    ("colorPicker", TBoolean);
    ("onColorPicker",
       TFun [("parent", TRef "HTMLElement");
             ("color", TAny);
             ("onChange", TFun [("value", TAny)] TVoid)] TVoid);
    ("timestampTag",
       TUnion [TBoolean; TFun [("args", TRef "JsonEditorNode")] TBoolean]);
    ("timestampFormat",
       TFun [("args", TRef "JsonEditorNode")] (TUnion [TString; TNull]));
    ("language", TString);
    ("languages", TObject);
    ("modalAnchor", TRef "HTMLElement");
    ("popupAnchor", TRef "HTMLElement");
    ("enableSort", TBoolean);
    ("enableTransform", TBoolean);
    ("maxVisibleChilds", TNumber);
    ("createQuery",
       TFun [("json", TRef "JSON");
             ("queryOptions", TRef "JsonEditorQueryOptions")] TString);
    ("executeQuery",
       TFun [("json", TRef "JSON"); ("query", TString)] (TRef "JSON"));
    ("queryDescription", TString);
    ("expandAll", TBoolean) ].

Definition member_names : list string := JsonEditorOptions_members.*1.

(** The declared type of a member of the class. *)
Definition member_type (k : string) : option ty :=
  assoc k JsonEditorOptions_members.

(** Parameters and return type of a member of function type. *)
Definition callback_params (k : string) : option (list (string * ty)) :=
  match member_type k with
  | Some (TFun ps _) => Some ps
  | _ => None
  end.

Definition callback_return (k : string) : option ty :=
  match member_type k with
  | Some (TFun _ r) => Some r
  | _ => None
  end.

(** The alternatives a type is written as: the arms of a union, the type
    itself otherwise. *)
Definition alternatives (t : ty) : list ty :=
  match t with
  | TUnion alts => alts
  | _ => [t]
  end.

(** A member that is required and one that is optional in a shape. *)
Definition shape_members (t : ty) : list (string * (bool * ty)) :=
  match t with
  | TShape ms => ms
  | _ => []
  end.

(** *** Conformance of a value to a declared type

    The reading is the strict one: [null] and [undefined] conform only
    where the declaration writes them ([null], [void], [any], an optional
    member), as the file itself does where it means them ([string | null]
    for [timestampFormat]).  A function value conforms to every function type, its
    signature is not observable.  A name the file does not declare is
    ambient and constrains nothing here.  The fuel bounds the unfolding
    of names and of nesting; running out of it rejects. *)
Fixpoint conforms (fuel : nat) (v : jsval) (t : ty) {struct fuel} : bool :=
  match fuel with
  | 0 => false
  | S fuel =>
      match t with
      | TAny => true
      | TVoid => is_undefined v
      | TNull => match v with JNull => true | _ => false end
      | TString => match v with JStr _ => true | _ => false end
      | TNumber => match v with JNum _ => true | _ => false end
      | TBoolean => match v with JBool _ => true | _ => false end
      | TObject =>
          match v with
          | JObj _ | JArr _ | JFun _ | JHost _ | JPromise _ => true
          | _ => false
          end
      | TLit s => match v with JStr s' => String.eqb s' s | _ => false end
      | TRef name =>
          match assoc name declarations with
          | Some t' => conforms fuel v t'
          | None => true
          end
      | TArray elem =>
          match v with
          | JArr xs => forallb (fun x => conforms fuel x elem) xs
          | _ => false
          end
      | TPromise result =>
          match v with
          | JPromise None => true
          | JPromise (Some x) => conforms fuel x result
          | _ => false
          end
      | TUnion alts => existsb (fun a => conforms fuel v a) alts
      | TFun _ _ => match v with JFun _ => true | _ => false end
      | TShape members =>
          match v with
          | JObj props =>
              forallb
                (fun m : string * (bool * ty) =>
                   match assoc m.1 props with
                   | Some x =>
                       conforms fuel x m.2.2 || (m.2.1 && is_undefined x)
                   | None => m.2.1
                   end)
                members
          | _ => false
          end
      end
  end.

(** A type admits a value when the value conforms to it. *)
Definition admits (t : ty) (v : jsval) : Prop :=
  ∃ fuel, conforms fuel v t = true.

(** *** Shapes of values, spelled out *)

(** A path segment: a string (object key) or a number (array index). *)
Definition is_segment (v : jsval) : Prop :=
  (∃ s, v = JStr s) ∨ (∃ n, v = JNum n).

(** A node path: an array of segments. *)
Definition is_path (v : jsval) : Prop :=
  ∃ segs, v = JArr segs ∧ Forall is_segment segs.

(** A validation error: an object with a path and a message string. *)
Definition is_validation_error (v : jsval) : Prop :=
  ∃ props p msg,
    v = JObj props ∧
    assoc "path" props = Some p ∧ is_path p ∧
    assoc "message" props = Some (JStr msg).

(** An array of validation errors. *)
Definition is_error_list (v : jsval) : Prop :=
  ∃ errs, v = JArr errs ∧ Forall is_validation_error errs.

(** A context node: an object with a [type] among the three kinds, a
    [path] and an array [paths] of paths. *)
Definition is_context_node (v : jsval) : Prop :=
  ∃ props kind path paths,
    v = JObj props ∧
    assoc "type" props = Some (JStr kind) ∧
    kind ∈ ["single"; "multiple"; "append"] ∧
    assoc "path" props = Some path ∧ is_path path ∧
    assoc "paths" props = Some (JArr paths) ∧ Forall is_path paths.

(** The declared return type of a callback member admits the value. *)
Definition return_admits (k : string) (v : jsval) : Prop :=
  ∃ r, callback_return k = Some r ∧ admits r v.

(** The validation result of the specification's scenario,
    [[{path: ["a", "b"], message: "required"}]]. *)
Definition sample_errors : jsval :=
  JArr [ JObj [ ("path", JArr [JStr "a"; JStr "b"]);
                ("message", JStr "required") ] ].

(** A context-menu item list, [[{type: "separator"}]]. *)
Definition sample_items : jsval :=
  JArr [ JObj [ ("type", JStr "separator") ] ].

(** A context node, [{type: "single", path: ["a", 0], paths: [["a", 0]]}]. *)
Definition sample_context_node : jsval :=
  JObj [ ("type", JStr "single");
         ("path", JArr [JStr "a"; JNum 0]);
         ("paths", JArr [JArr [JStr "a"; JNum 0]]) ].

(** The declared type of parameter [p] of a callback member admits the
    value. *)
Definition param_admits (k p : string) (v : jsval) : Prop :=
  ∃ ps t, callback_params k = Some ps ∧ assoc p ps = Some t ∧ admits t v.

(** The declared type of member [k] of the interface named [iface]. *)
Definition interface_member (iface k : string) : option ty :=
  match assoc iface declarations with
  | Some t => snd <$> assoc k (shape_members t)
  | None => None
  end.

(** A separator item: an object whose [type] is ['separator']. *)
Definition is_separator (v : jsval) : Prop :=
  ∃ props, v = JObj props ∧ assoc "type" props = Some (JStr "separator").

(** A button item: an object with strings [className] and [text], whose
    [title], [submenuTitle], [submenu] and [click], where present and not
    [undefined], are a string, a string, an array and a function. *)
Definition is_button (v : jsval) : Prop :=
  ∃ props cls txt,
    v = JObj props ∧
    assoc "className" props = Some (JStr cls) ∧
    assoc "text" props = Some (JStr txt) ∧
    (∀ x, assoc "title" props = Some x → x = JUndefined ∨ ∃ s, x = JStr s) ∧
    (∀ x, assoc "submenuTitle" props = Some x →
          x = JUndefined ∨ ∃ s, x = JStr s) ∧
    (∀ x, assoc "submenu" props = Some x →
          x = JUndefined ∨
          ∃ items, x = JArr items ∧
                   Forall (admits (TRef "JsonEditorContextMenuItem")) items) ∧
    (∀ x, assoc "click" props = Some x → x = JUndefined ∨ ∃ f, x = JFun f).

(** The object literal that has, of the listed properties, those that are
    given. *)
Definition present (parts : list (string * option jsval))
  : list (string * jsval) :=
  omap (fun p : string * option jsval => pair p.1 <$> p.2) parts.

(** Query options with any of the three parts present or left out. *)
Definition query_options (filter sort projection : option jsval) : jsval :=
  JObj (present [ ("filter", filter); ("sort", sort);
                  ("projection", projection) ]).

(** A tree node, [{field: "a", path: ["a"], value: 1}]. *)
Definition sample_node : jsval :=
  JObj [ ("field", JStr "a"); ("path", JArr [JStr "a"]); ("value", JNum 1) ].

(** A button with a submenu holding a separator. *)
Definition sample_button : jsval :=
  JObj [ ("className", JStr "jsoneditor-insert");
         ("text", JStr "Insert");
         ("submenu", JArr [ JObj [ ("type", JStr "separator") ] ]) ].

(** The declared type of a part of the query options. *)
Definition query_part (k : string) : ty :=
  default TAny (interface_member "JsonEditorQueryOptions" k).

(** An optional part is left out, [undefined], or of its type. *)
Definition part_ok (fuel : nat) (t : ty) (part : option jsval) : bool :=
  match part with
  | Some x => conforms fuel x t || is_undefined x
  | None => true
  end.

(** The query options of a filter on ["name"] alone. *)
Definition sample_filter : jsval :=
  JObj [ ("field", JStr "name"); ("relation", JStr "=="); ("value", JStr "x") ].

(** The declared type of a member of the class admits the value. *)
Definition member_admits (k : string) (v : jsval) : Prop :=
  ∃ t, member_type k = Some t ∧ admits t v.

(** The return type of a callback member is declared with the
    alternative [t]: [t] is one of the arms of the declared union, or the
    declared type itself when it is no union.  This reads the declaration
    as it is written and depends on no compiler setting. *)
Definition return_declares (k : string) (t : ty) : Prop :=
  ∃ r, callback_return k = Some r ∧ t ∈ alternatives r.

End TS.

Import TS.

(* ===================================================================== *)
(** ** The class [JsonEditorOptions]: construction *)
(* ===================================================================== *)

Module Options.

(** The constructor body, statement by statement.  The member
    declarations of the class carry no initialiser, so the fourteen
    assignments below are all that happens to [this]. *)
Definition constructor (this : obj) : obj :=
  let this := set_prop "escapeUnicode" (JBool false) this in
  let this := set_prop "sortObjectKeys" (JBool false) this in
  let this := set_prop "history" (JBool true) this in
  let this := set_prop "mode" (JStr "tree") this in
  let this := set_prop "search" (JBool true) this in
  let this := set_prop "indentation" (JNum 2) this in
  let this := set_prop "mainMenuBar" (JBool true) this in
  let this := set_prop "navigationBar" (JBool true) this in
  let this := set_prop "statusBar" (JBool true) this in
  let this := set_prop "colorPicker" (JBool true) this in
  let this := set_prop "enableSort" (JBool true) this in
  let this := set_prop "enableTransform" (JBool true) this in
  let this := set_prop "maxVisibleChilds" (JNum 100) this in
  let this := set_prop "expandAll" (JBool false) this in
  this.

(** The store of allocated objects. *)
Abbreviation heap := (gmap nat obj).

(** [new JsonEditorOptions()]: a fresh empty object is allocated, the
    constructor runs on it, and the expression evaluates to the new
    object's address.  Nothing but the new cell is written. *)
Definition new_JsonEditorOptions (h : heap) : heap * nat :=
  let l := fresh (dom h) in
  (<[l := constructor ∅]> h, l).

(** The object an address denotes (the empty object when dangling). *)
Definition deref (h : heap) (l : nat) : obj := default ∅ (h !! l).

(** The instance a [new] expression evaluates to, in the heap it leaves. *)
Definition constructed (h : heap) : obj :=
  let '(h', l) := new_JsonEditorOptions h in deref h' l.

(** *** Configuration by the host

    The members of the class are [public] fields without accessors: the
    host sets an option by assigning to the member, which is a plain
    store of whatever value is assigned. *)
Definition configure (h : heap) (writes : list (string * jsval)) : obj :=
  foldl (fun o w => set_prop w.1 w.2 o) (constructed h) writes.

(** Every member that is set holds a value of its declared type. *)
Definition well_typed (fuel : nat) (o : obj) : bool :=
  forallb
    (fun m : string * ty =>
       is_undefined (get_prop o m.1) || conforms fuel (get_prop o m.1) m.2)
    JsonEditorOptions_members.

(** If [mode] and [modes] are both set, [mode] is one of [modes]. *)
Definition mode_among_modes (o : obj) : bool :=
  match get_prop o "modes" with
  | JArr ms =>
      is_undefined (get_prop o "mode")
      || existsb (same_string (get_prop o "mode")) ms
  | _ => true
  end.

(** The instance has no property besides the declared members: in
    particular none that would hold an error report. *)
Definition only_members (o : obj) : Prop :=
  ∀ k, is_Some (o !! k) → k ∈ member_names.


(** The keys the constructor assigns, in its order. *)
Definition assigned_names : list string :=
  [ "escapeUnicode"; "sortObjectKeys"; "history"; "mode"; "search";
    "indentation"; "mainMenuBar"; "navigationBar"; "statusBar";
    "colorPicker"; "enableSort"; "enableTransform"; "maxVisibleChilds";
    "expandAll" ].

(** A write list assigns to declared members only, and to each a value
    of its declared type. *)
Definition typed_writes (fuel : nat) (writes : list (string * jsval)) : Prop :=
  Forall
    (fun w : string * jsval =>
       ∃ t, member_type w.1 = Some t ∧ conforms fuel w.2 t = true)
    writes.

End Options.

Import Options.

(* ===================================================================== *)
(** ** The defaults of the specification *)
(* ===================================================================== *)

Module Registry.

(** The defaults as the specification documents them: the table of its
    section 4.1, in its order, to be compared with what the constructor
    assigns. *)
Definition documented_defaults : list (string * jsval) :=
  [ ("escapeUnicode", JBool false);
    ("sortObjectKeys", JBool false);
    ("history", JBool true);
    ("mode", JStr "tree");
    ("search", JBool true);
    ("indentation", JNum 2);
    ("mainMenuBar", JBool true);
    ("navigationBar", JBool true);
    ("statusBar", JBool true);
    ("colorPicker", JBool true);
    ("enableSort", JBool true);
    ("enableTransform", JBool true);
    ("maxVisibleChilds", JNum 100);
    ("expandAll", JBool false) ].

(** The default of a field, [undefined] for a field without one. *)
Definition default_of (k : string) : jsval :=
  default JUndefined (assoc k documented_defaults).

(** Modelled from the spec: one step of the defaulting engine.  If the
    key of the registry entry is absent or [undefined] in [partial], the
    default is set; otherwise nothing is done for this entry. *)
Definition apply_default (partial : obj) (entry : string * jsval) (acc : obj)
  : obj :=
  if is_undefined (get_prop partial entry.1)
  then set_prop entry.1 entry.2 acc
  else acc.

(** Modelled from the spec: the defaulting engine [resolve] of section
    4.2, missing from the source, whose constructor takes no partial
    configuration and is the case of the empty one.  The result starts
    as [partial], so that every property the caller gave is kept as it
    is, and each registry entry with a default is applied to it. *)
Definition resolve (partial : obj) : obj :=
  foldr (apply_default partial) partial documented_defaults.

(** The partial configuration [{mode: "code", indentation: 4, schema:
    {type: "object"}}]. *)
Definition sample_partial : obj :=
  <["mode" := JStr "code"]>
    (<["indentation" := JNum 4]>
       (<["schema" := JObj [("type", JStr "object")]]> ∅)).

(** The members of the class for which the registry has no default. *)
Definition members_without_default : list string :=
  filter (fun k => assoc k documented_defaults = None) member_names.

(** The editor modes, [JsonEditorMode] of the source as an enumeration. *)
Inductive EditorMode : Type := Tree | View | Form | Text | Code | Preview.

Definition all_modes : list EditorMode := [Tree; View; Form; Text; Code; Preview].

Definition mode_name (m : EditorMode) : string :=
  match m with
  | Tree => "tree"
  | View => "view"
  | Form => "form"
  | Text => "text"
  | Code => "code"
  | Preview => "preview"
  end.

Definition mode_eqb (a b : EditorMode) : bool :=
  match a, b with
  | Tree, Tree | View, View | Form, Form
  | Text, Text | Code, Code | Preview, Preview => true
  | _, _ => false
  end.

(** Modelled from the spec: the mode-applicability table of section 4.3.
    The source has no such table; it keeps the rule as the sentences
    "Only applicable when [mode] is ..." of its doc comments, which the
    entries below follow. *)
Definition applicability : list (string * list EditorMode) :=
  [ ("ace", [Code]);
    ("onClassName", [Tree; Form; View]);
    ("onEditable", [Tree; Text; Code]);
    ("history", [Tree; Form; Preview]);
    ("name", [Tree; View; Form]);
    ("search", [Tree; View; Form]);
    ("indentation", [Code; Text; Preview]);
    ("navigationBar", [Tree; Form; View]);
    ("statusBar", [Code; Text; Preview]);
    ("enableSort", [Tree]);
    ("enableTransform", [Tree]) ].

(** Modelled from the spec: the modes in which a field has effect.  A
    field without an entry in the table is honoured in every mode. *)
Definition applicable_modes (field : string) : list EditorMode :=
  default all_modes (assoc field applicability).

(** Modelled from the spec: the lookup [isApplicable(field, mode)] of
    section 4.3, missing from the source. *)
Definition isApplicable (field : string) (m : EditorMode) : bool :=
  existsb (mode_eqb m) (applicable_modes field).

End Registry.

Import Registry.

(* ===================================================================== *)
(** ** Theorems: construction *)
(* ===================================================================== *)

Lemma get_set_eq (o : obj) k v : get_prop (set_prop k v o) k = v.
Proof. unfold get_prop, set_prop. by rewrite lookup_insert_eq. Qed.

Lemma get_set_ne (o : obj) k k' v :
  k ≠ k' → get_prop (set_prop k v o) k' = get_prop o k'.
Proof. intros. unfold get_prop, set_prop. by rewrite lookup_insert_ne. Qed.

Lemma is_undefined_true v : is_undefined v = true ↔ v = JUndefined.
Proof. destruct v; simpl; split; congruence. Qed.

Lemma is_undefined_false v : is_undefined v = false ↔ v ≠ JUndefined.
Proof. destruct v; simpl; split; congruence. Qed.

Lemma constructed_eq (h : heap) : constructed h = constructor ∅.
Proof.
  unfold constructed, new_JsonEditorOptions, deref.
  by rewrite lookup_insert_eq.
Qed.

Lemma assoc_cons {A} k k' (a : A) l :
  assoc k ((k', a) :: l) = if String.eqb k k' then Some a else assoc k l.
Proof. reflexivity. Qed.

(** Case analysis on the next string comparison of the goal. *)
Ltac case_key :=
  match goal with
  | |- context [String.eqb ?k ?s] =>
      destruct (String.eqb_spec k s) as [->|?]
  end.

Lemma lookup_constructor (this : obj) (k : string) :
  constructor this !! k =
  match assoc k documented_defaults with
  | Some d => Some d
  | None => this !! k
  end.
Proof.
  unfold constructor, documented_defaults, set_prop. simpl assoc.
  repeat (case_key;
          [ by repeat (first [ apply lookup_insert_eq
                             | rewrite lookup_insert_ne by done ])
          | ]).
  by repeat rewrite lookup_insert_ne by congruence.
Qed.

Lemma get_constructor (this : obj) (k : string) :
  get_prop (constructor this) k =
  match assoc k documented_defaults with
  | Some d => d
  | None => get_prop this k
  end.
Proof.
  unfold get_prop. rewrite lookup_constructor.
  by destruct (assoc k documented_defaults).
Qed.

Lemma get_constructed (h : heap) (k : string) :
  get_prop (constructed h) k = default_of k.
Proof.
  rewrite constructed_eq, get_constructor. unfold default_of.
  destruct (assoc k documented_defaults); [done|].
  unfold get_prop. by rewrite lookup_empty.
Qed.

(** C1.  Default construction yields exactly the documented defaults:
    whatever the heap, the instance that [new JsonEditorOptions()]
    evaluates to reads, at every key, as the table of defaults of the
    specification says, the fourteen values being the ones listed, and
    each of the thirty-three other members of the class reads
    [undefined]. *)
Theorem C1_default_construction (h : heap) :
  let o := constructed h in
  (∀ k, get_prop o k = default_of k) ∧
  get_prop o "escapeUnicode" = JBool false ∧
  get_prop o "sortObjectKeys" = JBool false ∧
  get_prop o "history" = JBool true ∧
  get_prop o "mode" = JStr "tree" ∧
  get_prop o "search" = JBool true ∧
  get_prop o "indentation" = JNum 2 ∧
  get_prop o "mainMenuBar" = JBool true ∧
  get_prop o "navigationBar" = JBool true ∧
  get_prop o "statusBar" = JBool true ∧
  get_prop o "colorPicker" = JBool true ∧
  get_prop o "enableSort" = JBool true ∧
  get_prop o "enableTransform" = JBool true ∧
  get_prop o "maxVisibleChilds" = JNum 100 ∧
  get_prop o "expandAll" = JBool false ∧
  length members_without_default = 33 ∧
  Forall (fun k => get_prop o k = JUndefined) members_without_default.
Proof.
  cbv zeta. split; [apply get_constructed|].
  rewrite !get_constructed.
  repeat (split; [reflexivity|]).
  apply Forall_forall. intros k Hk. rewrite get_constructed.
  unfold members_without_default in Hk.
  apply list_elem_of_filter in Hk as [Hk _].
  unfold default_of. by rewrite Hk.
Qed.

(** C9.  Default construction is deterministic: the constructor takes no
    argument and reads nothing, so the instances built in any two heaps
    agree on every field (they are the same property map). *)
Theorem C9_construction_deterministic (h1 h2 : heap) :
  constructed h1 = constructed h2 ∧
  ∀ k, get_prop (constructed h1) k = get_prop (constructed h2) k.
Proof.
  split; [by rewrite !constructed_eq|].
  intros k. by rewrite !get_constructed.
Qed.

(* ===================================================================== *)
(** ** Theorems: the defaulting engine *)
(* ===================================================================== *)

Section Defaulting.

Variable partial : obj.

(** Folding the defaults of any table [ds] over [partial]: a key reads
    its (first) default in [ds] when [partial] leaves it undefined, and
    what [partial] holds otherwise. *)
Lemma lookup_fold_defaults (ds : list (string * jsval)) (k : string) :
  foldr (apply_default partial) partial ds !! k =
  match assoc k ds with
  | Some d => if is_undefined (get_prop partial k) then Some d else partial !! k
  | None => partial !! k
  end.
Proof.
  induction ds as [|[k' d] ds IH]; [done|].
  rewrite assoc_cons. simpl foldr. unfold apply_default at 1. simpl fst; simpl snd.
  destruct (String.eqb_spec k k') as [->|Hne].
  - destruct (is_undefined (get_prop partial k')) eqn:Hu.
    + unfold set_prop. by rewrite lookup_insert_eq.
    + rewrite IH. by destruct (assoc k' ds).
  - destruct (is_undefined (get_prop partial k')).
    + unfold set_prop. rewrite lookup_insert_ne by congruence. apply IH.
    + apply IH.
Qed.

Lemma lookup_resolve (k : string) :
  resolve partial !! k =
  match assoc k documented_defaults with
  | Some d => if is_undefined (get_prop partial k) then Some d else partial !! k
  | None => partial !! k
  end.
Proof. apply lookup_fold_defaults. Qed.

Lemma get_resolve (k : string) :
  get_prop (resolve partial) k =
  if is_undefined (get_prop partial k) then default_of k else get_prop partial k.
Proof.
  unfold get_prop at 1. rewrite lookup_resolve. unfold default_of.
  destruct (assoc k documented_defaults) as [d|].
  - by destruct (is_undefined (get_prop partial k)).
  - destruct (is_undefined (get_prop partial k)) eqn:Hu; [|done].
    by apply is_undefined_true in Hu.
Qed.

End Defaulting.

(** No documented default is [undefined]. *)
Lemma defaults_defined (k : string) (d : jsval) :
  assoc k documented_defaults = Some d → is_undefined d = false.
Proof.
  unfold documented_defaults. simpl assoc.
  repeat (case_key; [by intros [= <-]|]). done.
Qed.

(** The engine agrees with the constructor of the source on the empty
    partial configuration. *)
Lemma resolve_empty (h : heap) : resolve ∅ = constructed h.
Proof.
  apply map_eq. intros k.
  rewrite lookup_resolve, constructed_eq, lookup_constructor.
  unfold get_prop. by rewrite lookup_empty.
Qed.

Lemma lookup_list_to_map (ws : list (string * jsval)) (k : string) :
  (list_to_map ws : obj) !! k = assoc k ws.
Proof.
  induction ws as [|[k' v] ws IH]; [done|].
  rewrite assoc_cons. simpl.
  destruct (String.eqb_spec k k') as [->|Hne].
  - by rewrite lookup_insert_eq.
  - rewrite lookup_insert_ne by congruence. apply IH.
Qed.

Lemma assoc_None_notin (ws : list (string * jsval)) (k : string) :
  k ∉ ws.*1 → assoc k ws = None.
Proof.
  induction ws as [|[k' v] ws IH]; [done|].
  rewrite fmap_cons, not_elem_of_cons. simpl. intros [Hne Hnin].
  destruct (String.eqb_spec k k'); [done|]. by apply IH.
Qed.

(** Assigning to distinct members, one after the other: a member reads
    what was assigned to it, any other key reads as before. *)
Lemma lookup_writes (ws : list (string * jsval)) (o : obj) (k : string) :
  NoDup ws.*1 →
  foldl (fun o w => set_prop w.1 w.2 o) o ws !! k =
  match assoc k ws with
  | Some v => Some v
  | None => o !! k
  end.
Proof.
  revert o. induction ws as [|[k' v] ws IH]; intros o Hnd; [done|].
  rewrite fmap_cons in Hnd. apply NoDup_cons in Hnd as [Hnin Hnd].
  rewrite assoc_cons. cbn [foldl fst snd]. rewrite IH by done.
  unfold set_prop.
  destruct (String.eqb_spec k k') as [->|Hne].
  - by rewrite assoc_None_notin, lookup_insert_eq.
  - by rewrite lookup_insert_ne by congruence.
Qed.

(** The source and the engine of the specification meet: constructing
    the options and then assigning defined values to distinct members
    gives the resolution of the partial configuration made of these
    assignments. *)
Lemma configure_is_resolve (h : heap) (ws : list (string * jsval)) :
  NoDup ws.*1 →
  Forall (fun w => w.2 ≠ JUndefined) ws →
  configure h ws = resolve (list_to_map ws).
Proof.
  intros Hnd Hdef. apply map_eq. intros k.
  unfold configure. rewrite lookup_writes by done.
  rewrite constructed_eq, lookup_constructor, lookup_resolve.
  unfold get_prop. rewrite lookup_list_to_map, lookup_empty.
  generalize (assoc k documented_defaults). intros dflt.
  destruct (assoc k ws) as [v|] eqn:Hk; simpl.
  - assert (v ≠ JUndefined) as Hv%is_undefined_false.
    { clear -Hk Hdef. induction Hdef as [|[k' v'] ws Hv _ IH]; [done|].
      rewrite assoc_cons in Hk. destruct (String.eqb k k'); [|by apply IH].
      by injection Hk as <-. }
    rewrite Hv. by destruct dflt.
  - by destruct dflt.
Qed.

(** C2.  For every partial configuration and every field: a field with a
    documented default that is absent from, or [undefined] in, the partial
    configuration is set to that default; a field that the partial
    configuration defines is kept as the very value given; a field without
    default is left as it is; and an object-valued field is carried over
    whole, never combined with anything. *)
Theorem C2_resolve_defaults_and_preserves (P : obj) (k : string) :
  (∀ d, assoc k documented_defaults = Some d →
        P !! k = None ∨ P !! k = Some JUndefined →
        get_prop (resolve P) k = d) ∧
  (get_prop P k ≠ JUndefined →
        resolve P !! k = P !! k ∧ get_prop (resolve P) k = get_prop P k) ∧
  (assoc k documented_defaults = None → resolve P !! k = P !! k) ∧
  (∀ props, get_prop P k = JObj props → get_prop (resolve P) k = JObj props).
Proof.
  split; [|split; [|split]].
  - intros d Hd Habs. rewrite get_resolve. unfold default_of. rewrite Hd.
    unfold get_prop. by destruct Habs as [-> | ->].
  - intros Hdef. apply is_undefined_false in Hdef. split.
    + rewrite lookup_resolve, Hdef.
      by destruct (assoc k documented_defaults).
    + by rewrite get_resolve, Hdef.
  - intros Hd. by rewrite lookup_resolve, Hd.
  - intros props Hp. by rewrite get_resolve, Hp.
Qed.

Lemma C2_resolve_witness :
  get_prop (resolve sample_partial) "history" = JBool true ∧
  get_prop (resolve sample_partial) "mode" = JStr "code" ∧
  resolve sample_partial !! "name" = None ∧
  get_prop (resolve sample_partial) "schema" = JObj [("type", JStr "object")].
Proof.
  split; [|split; [|split]].
  - apply (C2_resolve_defaults_and_preserves sample_partial "history").
    + reflexivity.
    + left. reflexivity.
  - apply (C2_resolve_defaults_and_preserves sample_partial "mode").
    vm_compute. discriminate.
  - rewrite (proj1 (proj2 (proj2
               (C2_resolve_defaults_and_preserves sample_partial "name")))
               eq_refl).
    reflexivity.
  - apply (C2_resolve_defaults_and_preserves sample_partial "schema").
    reflexivity.
Defined.

(** C3.  Resolution is idempotent: resolving a resolved configuration
    gives the same configuration, property for property.  [resolve] is a
    function of its argument alone: it reads nothing else and its
    argument is not written to. *)
Theorem C3_resolve_idempotent (P : obj) :
  resolve (resolve P) = resolve P.
Proof.
  apply map_eq. intros k.
  rewrite (lookup_resolve (resolve P)), get_resolve.
  destruct (assoc k documented_defaults) as [d|] eqn:Hd; [|done].
  rewrite lookup_resolve, Hd.
  destruct (is_undefined (get_prop P k)) eqn:Hu.
  - unfold default_of. rewrite Hd. simpl. by rewrite (defaults_defined _ _ Hd).
  - by rewrite Hu.
Qed.

(* ===================================================================== *)
(** ** Theorems: mode applicability *)
(* ===================================================================== *)

(** The enumeration and the declared union [JsonEditorMode] name the same
    six modes, in the same order. *)
Lemma mode_names_declared :
  JsonEditorMode = TUnion (map (fun m => TLit (mode_name m)) all_modes).
Proof. reflexivity. Qed.

(** C4.  [isApplicable] is a boolean function of the field and the mode
    that encodes the table: [ace] only under [code]; [search] and
    [navigationBar] only under [tree], [view], [form]; [indentation] and
    [statusBar] only under [code], [text], [preview]; [enableSort] and
    [enableTransform] only under [tree].  In particular it holds of
    [ace] under [code] and fails of [ace] under [tree]. *)
Theorem C4_mode_applicability (m : EditorMode) :
  isApplicable "ace" m = match m with Code => true | _ => false end ∧
  isApplicable "search" m =
    match m with Tree | View | Form => true | _ => false end ∧
  isApplicable "navigationBar" m =
    match m with Tree | View | Form => true | _ => false end ∧
  isApplicable "indentation" m =
    match m with Code | Text | Preview => true | _ => false end ∧
  isApplicable "statusBar" m =
    match m with Code | Text | Preview => true | _ => false end ∧
  isApplicable "enableSort" m = match m with Tree => true | _ => false end ∧
  isApplicable "enableTransform" m =
    match m with Tree => true | _ => false end ∧
  isApplicable "ace" Code = true ∧
  isApplicable "ace" Tree = false.
Proof. destruct m; vm_compute; repeat split. Qed.

(* ===================================================================== *)
(** ** Theorems: declared types and the values they admit *)
(* ===================================================================== *)

Lemma forallb_Forall {A} (f : A → bool) (P : A → Prop) (l : list A) :
  (∀ x, f x = true → P x) → forallb f l = true → Forall P l.
Proof.
  intros Hf. induction l as [|x l IH]; simpl; [constructor|].
  intros [Hx Hl]%andb_prop. constructor; auto.
Qed.

(** Out of fuel nothing conforms. *)
Lemma conforms_0 v t : conforms 0 v t = false.
Proof. reflexivity. Qed.

Lemma conforms_segment fuel v :
  conforms fuel v (TUnion [TString; TNumber]) = true → is_segment v.
Proof.
  destruct fuel as [|[|fuel]]; [done| |]; simpl.
  - done.
  - destruct v; simpl; try done; intros _; [right|left]; eauto.
Qed.

Lemma conforms_path fuel v :
  conforms fuel v (TRef "JsonEditorNodePath") = true → is_path v.
Proof.
  destruct fuel as [|[|fuel]]; [done|done|]. simpl.
  destruct v; try done. intros H. exists elems. split; [done|].
  eapply forallb_Forall; [|exact H]. apply conforms_segment.
Qed.

Lemma conforms_path_list fuel v :
  conforms fuel v (TArray (TRef "JsonEditorNodePath")) = true →
  ∃ ps, v = JArr ps ∧ Forall is_path ps.
Proof.
  destruct fuel as [|fuel]; [done|]. simpl.
  destruct v; try done. intros H. exists elems. split; [done|].
  eapply forallb_Forall; [|exact H]. apply conforms_path.
Qed.

Lemma conforms_string fuel v :
  conforms fuel v TString = true → ∃ s, v = JStr s.
Proof. destruct fuel; [done|]. destruct v; simpl; try done. eauto. Qed.

Lemma conforms_validation_error fuel v :
  conforms fuel v (TRef "JsonEditorValidationError") = true →
  is_validation_error v.
Proof.
  destruct fuel as [|[|fuel]]; [done|done|]. simpl.
  destruct v; try done.
  destruct (assoc "path" props) as [p|] eqn:Hp; [|done].
  destruct (assoc "message" props) as [msg|] eqn:Hm;
    [|by rewrite andb_false_r].
  rewrite !orb_false_r, andb_true_r.
  intros [H1 H2]%andb_prop.
  apply conforms_path in H1. apply conforms_string in H2 as [s ->].
  by exists props, p, s.
Qed.

Lemma conforms_error_list fuel v :
  conforms fuel v (TArray (TRef "JsonEditorValidationError")) = true →
  is_error_list v.
Proof.
  destruct fuel as [|fuel]; [done|]. simpl.
  destruct v; try done. intros H. exists elems. split; [done|].
  eapply forallb_Forall; [|exact H]. apply conforms_validation_error.
Qed.

(** C6.  [onValidate] takes the JSON document and returns an array of
    validation errors or a promise of such an array; a validation error
    is a record of a [path], which is a node path, and a [message], which
    is a string.  So the declarations read, and so is every value the
    declared return type admits. *)
Theorem C6_onValidate_signature :
  callback_params "onValidate" = Some [("json", TRef "JSON")] ∧
  callback_return "onValidate" =
    Some (TUnion [TArray (TRef "JsonEditorValidationError");
                  TPromise (TArray (TRef "JsonEditorValidationError"))]) ∧
  assoc "JsonEditorValidationError" declarations =
    Some (TShape [req "path" (TRef "JsonEditorNodePath");
                  req "message" TString]) ∧
  assoc "JsonEditorNodePath" declarations =
    Some (TArray (TUnion [TString; TNumber])) ∧
  ∀ v, return_admits "onValidate" v →
       is_error_list v ∨
       ∃ f, v = JPromise f ∧ ∀ x, f = Some x → is_error_list x.
Proof.
  repeat (split; [reflexivity|]).
  intros v (r & [= <-] & fuel & H).
  destruct fuel as [|fuel]; [done|]. simpl in H.
  rewrite orb_false_r in H. apply orb_prop in H as [H|H].
  - left. by apply conforms_error_list in H.
  - right. destruct fuel as [|fuel]; [done|]. simpl in H.
    destruct v as [| | | | | | | | |f]; try done.
    exists f. split; [done|]. intros x ->.
    by apply conforms_error_list in H.
Qed.

Lemma C6_onValidate_witness :
  is_error_list sample_errors ∨
  ∃ f, sample_errors = JPromise f ∧ ∀ x, f = Some x → is_error_list x.
Proof.
  apply C6_onValidate_signature.
  eexists. split; [reflexivity|]. exists 10. reflexivity.
Defined.

Lemma conforms_context_node fuel v :
  conforms fuel v (TRef "JsonEditorContextMenuNode") = true →
  is_context_node v.
Proof.
  destruct fuel as [|[|fuel]]; [done|done|]. simpl.
  destruct v; try done.
  destruct (assoc "type" props) as [kind|] eqn:Hk; [|done].
  destruct (assoc "path" props) as [path|] eqn:Hp;
    [|by rewrite andb_false_r].
  destruct (assoc "paths" props) as [paths|] eqn:Hps;
    [|by rewrite !andb_false_r].
  rewrite !orb_false_r, andb_true_r.
  intros [H1 [H2 H3]%andb_prop]%andb_prop.
  apply conforms_path in H2.
  apply conforms_path_list in H3 as (ps & -> & Hall).
  exists props, (match kind with JStr s => s | _ => "" end), path, ps.
  destruct fuel as [|fuel]; [done|]. simpl in H1.
  destruct fuel as [|fuel]; [done|]. simpl in H1.
  destruct kind as [| | | |s| | | | |]; try done.
  repeat (split; [done|]). split; [|done].
  rewrite orb_false_r in H1.
  apply orb_prop in H1 as [->%String.eqb_eq|H1]; [set_solver|].
  apply orb_prop in H1 as [->%String.eqb_eq| ->%String.eqb_eq]; set_solver.
Qed.

(** C10.  The context node handed to [onCreateMenu] has three members,
    all of them required: a [type] that is ['single'], ['multiple'] or
    ['append'], a [path] that is a node path, and [paths], an array of
    node paths.  So the declaration reads, and every value it admits
    carries the three together. *)
Theorem C10_context_menu_node :
  callback_params "onCreateMenu" =
    Some [("items", TArray (TRef "JsonEditorContextMenuItem"));
          ("node", TRef "JsonEditorContextMenuNode")] ∧
  assoc "JsonEditorContextMenuNode" declarations =
    Some (TShape
            [req "type" (TUnion [TLit "single"; TLit "multiple"; TLit "append"]);
             req "path" (TRef "JsonEditorNodePath");
             req "paths" (TArray (TRef "JsonEditorNodePath"))]) ∧
  ∀ v, admits (TRef "JsonEditorContextMenuNode") v → is_context_node v.
Proof.
  repeat (split; [reflexivity|]).
  intros v [fuel H]. by apply conforms_context_node in H.
Qed.

Lemma C10_context_menu_node_witness : is_context_node sample_context_node.
Proof.
  apply C10_context_menu_node. exists 10. reflexivity.
Defined.

(** C7, as stated, fails: the return type of [onCreateMenu] is declared
    [void]; an array of context-menu items is not among the alternatives
    the return type is declared with. *)
Lemma C7_onCreateMenu_counterexample :
  callback_return "onCreateMenu" = Some TVoid ∧
  ¬ return_declares "onCreateMenu" (TArray (TRef "JsonEditorContextMenuItem")).
Proof.
  split; [reflexivity|].
  intros (r & [= <-] & Hin). simpl in Hin.
  apply list_elem_of_singleton in Hin. discriminate.
Qed.

(** C7, amended.  [onCreateMenu] is declared with the item list (an
    array of context-menu items) and the context node as parameters, and
    its return type is declared [void] alone: [void] is the one
    alternative the return type is declared with. *)
Theorem C7_onCreateMenu_returns_void :
  callback_params "onCreateMenu" =
    Some [("items", TArray (TRef "JsonEditorContextMenuItem"));
          ("node", TRef "JsonEditorContextMenuNode")] ∧
  callback_return "onCreateMenu" = Some TVoid ∧
  ∀ t, return_declares "onCreateMenu" t ↔ t = TVoid.
Proof.
  repeat (split; [reflexivity|]). intros t. split.
  - intros (r & [= <-] & Hin). simpl in Hin.
    by apply list_elem_of_singleton in Hin.
  - intros ->. exists TVoid. split; [reflexivity|].
    simpl. by apply list_elem_of_singleton.
Qed.

Lemma C7_onCreateMenu_witness : return_declares "onCreateMenu" TVoid.
Proof.
  apply C7_onCreateMenu_returns_void. reflexivity.
Defined.

(** C8, as stated, fails: the return type of [onNodeName] is declared
    [string]; [null] is not among the alternatives it is declared with,
    as it is for [timestampFormat], declared [string | null]. *)
Lemma C8_onNodeName_counterexample :
  callback_return "onNodeName" = Some TString ∧
  ¬ return_declares "onNodeName" TNull ∧
  return_declares "timestampFormat" TNull.
Proof.
  split; [reflexivity|]. split.
  - intros (r & [= <-] & Hin). simpl in Hin.
    apply list_elem_of_singleton in Hin. discriminate.
  - eexists. split; [reflexivity|]. simpl. set_solver.
Qed.

(** C8, amended.  [onNodeName] takes one argument record with the members
    [path] (a node path), [size] (a number) and [type] (['object'] or
    ['array']), and its return type is declared [string] alone: [string]
    is the one alternative the return type is declared with. *)
Theorem C8_onNodeName_returns_string :
  callback_params "onNodeName" = Some [("args", TRef "JsonEditorNodeNameArgs")] ∧
  assoc "JsonEditorNodeNameArgs" declarations =
    Some (TShape [req "path" (TRef "JsonEditorNodePath");
                  req "size" TNumber;
                  req "type" (TUnion [TLit "object"; TLit "array"])]) ∧
  callback_return "onNodeName" = Some TString ∧
  ∀ t, return_declares "onNodeName" t ↔ t = TString.
Proof.
  repeat (split; [reflexivity|]). intros t. split.
  - intros (r & [= <-] & Hin). simpl in Hin.
    by apply list_elem_of_singleton in Hin.
  - intros ->. exists TString. split; [reflexivity|].
    simpl. by apply list_elem_of_singleton.
Qed.

Lemma C8_onNodeName_witness : return_declares "onNodeName" TString.
Proof.
  apply C8_onNodeName_returns_string. reflexivity.
Defined.

(* ===================================================================== *)
(** ** Theorems: configuration-shape errors *)
(* ===================================================================== *)

Lemma conforms_mode fuel v :
  conforms fuel v (TRef "JsonEditorMode") = true →
  ∃ m, v = JStr (mode_name m).
Proof.
  destruct fuel as [|[|[|fuel]]]; try done. simpl.
  destruct v as [| | | |s| | | | |]; simpl; try done.
  rewrite orb_false_r. intros H.
  repeat (apply orb_prop in H as [H|H];
          [apply String.eqb_eq in H as ->|]).
  - by exists Tree.
  - by exists View.
  - by exists Form.
  - by exists Text.
  - by exists Code.
  - apply String.eqb_eq in H as ->. by exists Preview.
Qed.

Lemma default_is_member (k : string) (d : jsval) :
  assoc k documented_defaults = Some d → k ∈ member_names.
Proof.
  unfold documented_defaults. simpl assoc.
  repeat (case_key;
          [intros _; apply (bool_decide_unpack _); vm_compute; exact I|]).
  done.
Qed.

Lemma only_members_constructor : only_members (constructor ∅).
Proof.
  intros k [x Hx]. rewrite lookup_constructor in Hx.
  destruct (assoc k documented_defaults) as [d|] eqn:Hd.
  - by eapply default_is_member.
  - by rewrite lookup_empty in Hx.
Qed.

(** Assignments to declared members add no other property. *)
Lemma only_members_configure (h : heap) (writes : list (string * jsval)) :
  Forall (fun w : string * jsval => w.1 ∈ member_names) writes →
  only_members (configure h writes).
Proof.
  unfold configure. rewrite constructed_eq.
  generalize only_members_constructor. generalize (constructor ∅).
  induction writes as [|[k v] ws IH]; intros o Ho Hws; [done|].
  apply Forall_cons in Hws as [Hk Hws]. cbn [foldl fst snd].
  apply IH; [|done]. intros j Hj. unfold set_prop in Hj.
  destruct (decide (k = j)) as [<-|Hne]; [done|].
  rewrite lookup_insert_ne in Hj by done. by apply Ho.
Qed.

(** What a key reads after assignments: the value last assigned to it,
    as it was given, or else what construction left. *)
Lemma get_configure (h : heap) (writes : list (string * jsval)) (k : string) :
  get_prop (configure h writes) k =
  match assoc k (reverse writes) with
  | Some v => v
  | None => get_prop (constructed h) k
  end.
Proof.
  unfold configure.
  induction writes as [|[k' v] ws IH] using rev_ind; [done|].
  rewrite foldl_app, reverse_snoc, assoc_cons. cbn [foldl fst snd].
  destruct (String.eqb_spec k k') as [->|Hne].
  - apply get_set_eq.
  - rewrite get_set_ne by congruence. apply IH.
Qed.

(** C5, as stated, fails: the host builds the options and sets
    [mode = 'tree'] and [modes = ['code']], each a value of the declared
    type of its member; the resulting configuration has [mode] and
    [modes] both given with [mode] not among [modes], and consists of the
    declared members only: no error value has been produced.  Leaving
    [mode] to its default and setting only [modes] gives the same
    configuration, and so does the defaulting engine of the
    specification on [{mode: 'tree', modes: ['code']}]. *)
Lemma C5_shape_error_counterexample :
  let o := configure ∅ [("mode", JStr "tree"); ("modes", JArr [JStr "code"])] in
  admits (TRef "JsonEditorMode") (JStr "tree") ∧
  admits (TArray (TRef "JsonEditorMode")) (JArr [JStr "code"]) ∧
  get_prop o "mode" = JStr "tree" ∧
  get_prop o "modes" = JArr [JStr "code"] ∧
  mode_among_modes o = false ∧
  only_members o ∧
  configure ∅ [("modes", JArr [JStr "code"])] = o ∧
  resolve (<["mode" := JStr "tree"]> (<["modes" := JArr [JStr "code"]]> ∅)) = o.
Proof.
  cbv zeta. split; [exists 10; reflexivity|].
  split; [exists 10; reflexivity|].
  split; [vm_compute; reflexivity|].
  split; [vm_compute; reflexivity|].
  split; [vm_compute; reflexivity|].
  split; [|split].
  - apply only_members_configure.
    repeat constructor; apply (bool_decide_unpack _); vm_compute; exact I.
  - apply map_eq. intros k. unfold configure. rewrite constructed_eq.
    cbn [foldl fst snd]. unfold set_prop.
    destruct (decide ("modes" = k)) as [<-|Hmodes].
    + by rewrite !lookup_insert_eq.
    + rewrite !lookup_insert_ne by done.
      destruct (decide ("mode" = k)) as [<-|Hmode].
      * rewrite lookup_insert_eq. by rewrite lookup_constructor.
      * by rewrite lookup_insert_ne by done.
  - symmetry.
    apply (configure_is_resolve ∅
             [("mode", JStr "tree"); ("modes", JArr [JStr "code"])]).
    + apply (bool_decide_unpack _). vm_compute. exact I.
    + by repeat constructor.
Qed.

(** C5, amended.  The options model neither checks the shape of a
    configuration nor produces error values.  Construction always
    completes, and yields a configuration with [mode] set to ["tree"] and
    [modes] unset, whose members, where set, hold values of their
    declared types, and with no property besides the declared members.  A
    mode outside the six names is excluded by the declared type of
    [mode], the closed union [JsonEditorMode].  Whatever the host then
    assigns to declared members is stored as it is given: each key reads
    the value last assigned to it, or else what construction left, and
    the configuration still has no property besides the declared
    members, whether or not [mode] is among [modes]. *)
Theorem C5_no_shape_checking (h : heap) (writes : list (string * jsval)) :
  let o := constructed h in
  get_prop o "mode" = JStr "tree" ∧
  o !! "modes" = None ∧
  well_typed 4 o = true ∧
  mode_among_modes o = true ∧
  only_members o ∧
  member_type "mode" = Some (TRef "JsonEditorMode") ∧
  assoc "JsonEditorMode" declarations =
    Some (TUnion [TLit "tree"; TLit "view"; TLit "form"; TLit "text";
                  TLit "code"; TLit "preview"]) ∧
  (∀ v, admits (TRef "JsonEditorMode") v → ∃ m, v = JStr (mode_name m)) ∧
  (Forall (fun w : string * jsval => w.1 ∈ member_names) writes →
   only_members (configure h writes) ∧
   ∀ k, get_prop (configure h writes) k =
        match assoc k (reverse writes) with
        | Some v => v
        | None => get_prop o k
        end).
Proof.
  cbv zeta. rewrite constructed_eq.
  split; [vm_compute; reflexivity|].
  split; [vm_compute; reflexivity|].
  split; [vm_compute; reflexivity|].
  split; [vm_compute; reflexivity|].
  split; [apply only_members_constructor|].
  split; [reflexivity|]. split; [reflexivity|]. split.
  - intros v [fuel H]. by apply conforms_mode in H.
  - intros Hws. split; [by apply only_members_configure|].
    intros k. rewrite get_configure. by rewrite constructed_eq.
Qed.

Lemma C5_no_shape_checking_witness :
  (∃ m, JStr "form" = JStr (mode_name m)) ∧
  only_members
    (configure ∅ [("mode", JStr "tree"); ("modes", JArr [JStr "code"])]) ∧
  get_prop
    (configure ∅ [("mode", JStr "tree"); ("modes", JArr [JStr "code"])])
    "modes" = JArr [JStr "code"].
Proof.
  pose proof (C5_no_shape_checking ∅
                [("mode", JStr "tree"); ("modes", JArr [JStr "code"])])
    as (_ & _ & _ & _ & _ & _ & _ & Hmode & Hwrites).
  split; [apply Hmode; exists 3; reflexivity|].
  destruct Hwrites as [Hom Hget].
  { repeat constructor; apply (bool_decide_unpack _); vm_compute; exact I. }
  split; [exact Hom|]. rewrite Hget. reflexivity.
Defined.

(* ===================================================================== *)
(** ** Further properties: the constructor *)
(* ===================================================================== *)

Lemma assigned_names_defaults : assigned_names = documented_defaults.*1.
Proof. reflexivity. Qed.

Lemma assoc_Some_elem {A} (l : list (string * A)) (k : string) (a : A) :
  assoc k l = Some a → k ∈ l.*1.
Proof.
  induction l as [|[k' a'] l IH]; [done|].
  rewrite assoc_cons, fmap_cons. simpl.
  destruct (String.eqb_spec k k') as [->|Hne]; [set_solver|].
  intros H. apply elem_of_cons. right. by apply IH.
Qed.

Lemma assoc_elem_Some {A} (l : list (string * A)) (k : string) :
  k ∈ l.*1 → is_Some (assoc k l).
Proof.
  induction l as [|[k' a'] l IH]; [by intros ?%elem_of_nil|].
  rewrite assoc_cons, fmap_cons. simpl.
  destruct (String.eqb_spec k k') as [->|Hne]; [by eexists|].
  intros [?|?]%elem_of_cons; [done|]. by apply IH.
Qed.

(** X1.  The whole effect of the constructor on any receiver: each of
    the fourteen keys it assigns ends with its default, whatever the
    receiver held there before; every other property of the receiver,
    present or absent, is left exactly as it was; and the receiver gains
    precisely those fourteen keys. *)
Theorem X1_constructor_effect (this : obj) :
  (∀ k, k ∈ assigned_names → get_prop (constructor this) k = default_of k
                              ∧ is_Some (constructor this !! k)) ∧
  (∀ k, k ∉ assigned_names → constructor this !! k = this !! k) ∧
  dom (constructor this) = dom this ∪ list_to_set assigned_names.
Proof.
  assert (Hin : ∀ k, k ∈ assigned_names ↔ is_Some (assoc k documented_defaults)).
  { intros k. rewrite assigned_names_defaults. split.
    - apply assoc_elem_Some.
    - intros [d Hd]. by eapply assoc_Some_elem. }
  split; [|split].
  - intros k [d Hd]%Hin. unfold get_prop, default_of.
    rewrite lookup_constructor, Hd. eauto.
  - intros k Hk. rewrite lookup_constructor.
    destruct (assoc k documented_defaults) as [d|] eqn:Hd; [|done].
    destruct Hk. apply Hin. eauto.
  - apply set_eq. intros k.
    rewrite elem_of_union, !elem_of_dom, elem_of_list_to_set, Hin.
    rewrite lookup_constructor.
    destruct (assoc k documented_defaults) as [d|]; split; eauto.
    intros [?|[? [=]]]. done.
Qed.

Lemma X1_constructor_effect_witness :
  get_prop (constructor (<["mode" := JStr "code"]> ∅)) "mode" = JStr "tree" ∧
  constructor (<["schema" := JObj []]> ∅) !! "schema" = Some (JObj []).
Proof.
  split.
  - apply (X1_constructor_effect (<["mode" := JStr "code"]> ∅)).
    apply (bool_decide_unpack _). vm_compute. exact I.
  - rewrite (proj1 (proj2 (X1_constructor_effect (<["schema" := JObj []]> ∅)))).
    + reflexivity.
    + apply (bool_decide_unpack _). vm_compute. exact I.
Defined.

(** X2.  How the constructor composes with itself and with assignments
    made to the receiver beforehand: running it twice is running it once;
    a value assigned beforehand to one of the fourteen keys is lost; an
    assignment to any other key commutes with it. *)
Theorem X2_constructor_composition (this : obj) (k : string) (v : jsval) :
  constructor (constructor this) = constructor this ∧
  (k ∈ assigned_names →
     constructor (set_prop k v this) = constructor this) ∧
  (k ∉ assigned_names →
     constructor (set_prop k v this) = set_prop k v (constructor this)).
Proof.
  assert (Hin : k ∈ assigned_names ↔ is_Some (assoc k documented_defaults)).
  { rewrite assigned_names_defaults. split.
    - apply assoc_elem_Some.
    - intros [d Hd]. by eapply assoc_Some_elem. }
  split; [|split].
  - apply map_eq. intros j. rewrite !lookup_constructor.
    by destruct (assoc j documented_defaults).
  - intros [d Hd]%Hin. apply map_eq. intros j. rewrite !lookup_constructor.
    destruct (assoc j documented_defaults) as [dj|] eqn:Hj; [done|].
    unfold set_prop. apply lookup_insert_ne. intros <-. congruence.
  - intros Hk. apply map_eq. intros j. unfold set_prop.
    destruct (decide (k = j)) as [<-|Hne].
    + rewrite lookup_insert_eq, lookup_constructor, lookup_insert_eq.
      destruct (assoc k documented_defaults) as [d|] eqn:Hd; [|done].
      destruct Hk. apply Hin. eauto.
    + rewrite lookup_insert_ne by done.
      rewrite !lookup_constructor. by rewrite lookup_insert_ne by done.
Qed.

Lemma X2_constructor_composition_witness :
  constructor (set_prop "mode" (JStr "code") ∅) = constructor ∅ ∧
  constructor (set_prop "name" (JStr "root") ∅)
  = set_prop "name" (JStr "root") (constructor ∅).
Proof.
  split.
  - apply (X2_constructor_composition ∅ "mode" (JStr "code")).
    apply (bool_decide_unpack _). vm_compute. exact I.
  - apply (X2_constructor_composition ∅ "name" (JStr "root")).
    apply (bool_decide_unpack _). vm_compute. exact I.
Defined.



(* ===================================================================== *)
(** ** Further properties: assignments by the host *)
(* ===================================================================== *)

Lemma forallb_impl {A} (f g : A → bool) (l : list A) :
  (∀ x, f x = true → g x = true) → forallb f l = true → forallb g l = true.
Proof.
  intros Hfg. induction l as [|x l IH]; simpl; [done|].
  intros [Hx Hl]%andb_prop. by rewrite (Hfg x Hx), IH.
Qed.

Lemma existsb_impl {A} (f g : A → bool) (l : list A) :
  (∀ x, f x = true → g x = true) → existsb f l = true → existsb g l = true.
Proof.
  intros Hfg. induction l as [|x l IH]; simpl; [done|].
  intros [Hx|Hl]%orb_prop.
  - by rewrite (Hfg x Hx).
  - rewrite IH by done. apply orb_true_r.
Qed.

(** More fuel never rejects what less fuel accepts. *)
Lemma conforms_mono (n : nat) :
  ∀ m v t, (n ≤ m)%nat → conforms n v t = true → conforms m v t = true.
Proof.
  induction n as [|n IH]; intros m v t Hle H; [done|].
  destruct m as [|m]; [lia|].
  assert (IH' : ∀ v t, conforms n v t = true → conforms m v t = true).
  { intros. eapply IH; [lia|done]. }
  destruct t; cbn [conforms] in *; try done.
  - destruct (assoc name declarations); auto.
  - destruct v; try done. revert H. apply forallb_impl. auto.
  - destruct v as [| | | | | | | | |[x|]]; try done. auto.
  - revert H. apply existsb_impl. auto.
  - destruct v; try done. revert H. apply forallb_impl.
    intros [k [o t]]. simpl. destruct (assoc k props) as [x|]; [|done].
    intros [Hc|Hu]%orb_prop.
    + by rewrite (IH' _ _ Hc).
    + rewrite Hu. apply orb_true_r.
Qed.

Lemma well_typed_mono (n m : nat) (o : obj) :
  (n ≤ m)%nat → well_typed n o = true → well_typed m o = true.
Proof.
  intros Hle. unfold well_typed. apply forallb_impl. intros [k t]. simpl.
  intros [Hu|Hc]%orb_prop.
  - by rewrite Hu.
  - rewrite (conforms_mono n m _ _ Hle Hc). apply orb_true_r.
Qed.

Lemma member_names_NoDup : NoDup member_names.
Proof. apply (bool_decide_unpack _). vm_compute. exact I. Qed.

Lemma assoc_NoDup {A} (l : list (string * A)) (k : string) (a : A) :
  NoDup l.*1 → (k, a) ∈ l → assoc k l = Some a.
Proof.
  induction l as [|[k' a'] l IH]; [by intros _ ?%elem_of_nil|].
  rewrite fmap_cons, assoc_cons. simpl.
  intros [Hnin Hnd]%NoDup_cons [[= -> ->]|Hin]%elem_of_cons.
  - by rewrite String.eqb_refl.
  - destruct (String.eqb_spec k k') as [->|Hne]; [|by apply IH].
    destruct Hnin. apply list_elem_of_fmap. by exists (k', a).
Qed.

(** Assigning to a member a value of its declared type keeps every
    member, where set, of its declared type. *)
Lemma well_typed_write (fuel : nat) (o : obj) k v t :
  member_type k = Some t → conforms fuel v t = true →
  well_typed fuel o = true → well_typed fuel (set_prop k v o) = true.
Proof.
  intros Hk Hv. unfold well_typed. rewrite !forallb_forall.
  intros Ho [k' t'] Hin. simpl.
  destruct (decide (k = k')) as [<-|Hne].
  - rewrite get_set_eq.
    apply list_elem_of_In, (assoc_NoDup _ _ _ member_names_NoDup) in Hin.
    unfold member_type in Hk. rewrite Hk in Hin. injection Hin as <-.
    rewrite Hv. apply orb_true_r.
  - rewrite get_set_ne by done. apply (Ho (k', t') Hin).
Qed.

Lemma only_members_write (o : obj) k v :
  k ∈ member_names → only_members o → only_members (set_prop k v o).
Proof.
  intros Hk Ho j Hj. unfold set_prop in Hj.
  destruct (decide (k = j)) as [<-|Hne]; [done|].
  rewrite lookup_insert_ne in Hj by done. by apply Ho.
Qed.

(** X4.  An invariant of configuring by assignment: if the host
    constructs the options and then assigns, in any order and any number
    of times, values of the declared types to declared members, every
    member that is set holds a value of its declared type and the
    instance has no property besides the declared members. *)
Theorem X4_typed_writes_keep_shape
    (fuel : nat) (h : heap) (writes : list (string * jsval)) :
  (3 ≤ fuel)%nat → typed_writes fuel writes →
  well_typed fuel (configure h writes) = true ∧
  only_members (configure h writes).
Proof.
  intros Hfuel Hws. unfold configure. rewrite constructed_eq.
  assert (Hbase : well_typed fuel (constructor ∅) = true
                  ∧ only_members (constructor ∅)).
  { split; [|apply only_members_constructor].
    apply (well_typed_mono 3); [done|]. vm_compute. reflexivity. }
  revert Hbase. generalize (constructor ∅).
  induction Hws as [|[k v] ws (t & Hk & Hv) _ IH]; intros o [Hwt Hom]; [done|].
  cbn [foldl fst snd]. simpl in Hk, Hv. apply IH. split.
  - by eapply well_typed_write.
  - apply only_members_write; [|done].
    unfold member_type in Hk. by eapply assoc_Some_elem.
Qed.

Lemma X4_typed_writes_witness :
  well_typed 4 (configure ∅ [("mode", JStr "code"); ("indentation", JNum 4);
                             ("mode", JStr "text")]) = true ∧
  only_members (configure ∅ [("mode", JStr "code"); ("indentation", JNum 4);
                             ("mode", JStr "text")]).
Proof.
  apply X4_typed_writes_keep_shape; [lia|].
  repeat constructor; eexists; (split; [reflexivity|]); reflexivity.
Defined.

(** X5.  Reading back after configuring by assignment: a member reads
    the value of the last assignment made to it, and a key that was
    never assigned reads what construction left there, its default or
    [undefined]. *)
Theorem X5_last_write_wins
    (h : heap) (writes : list (string * jsval)) (k : string) :
  get_prop (configure h writes) k =
  match assoc k (reverse writes) with
  | Some v => v
  | None => default_of k
  end.
Proof.
  unfold configure.
  induction writes as [|[k' v] ws IH] using rev_ind.
  - apply get_constructed.
  - rewrite foldl_app, reverse_snoc, assoc_cons. cbn [foldl fst snd].
    destruct (String.eqb_spec k k') as [->|Hne].
    + apply get_set_eq.
    + rewrite get_set_ne by congruence. apply IH.
Qed.

(* ===================================================================== *)
(** ** Further properties: the declared types *)
(* ===================================================================== *)

(** X6.  A tree node can stand for a serializable node: every value that
    [JsonEditorNode] admits (the node handed to [onClassName],
    [onEditable], [onEvent]) is admitted by [JsonEditorSerializableNode]
    (what [onSelectionChange] takes), with the same fuel. *)
Theorem X6_node_is_serializable (v : jsval) :
  admits (TRef "JsonEditorNode") v →
  admits (TRef "JsonEditorSerializableNode") v.
Proof.
  intros [fuel H]. exists fuel.
  destruct fuel as [|[|fuel]]; [done|done|].
  simpl in H |- *. destruct v; try done.
  destruct (assoc "field" props) as [f|]; [|done].
  destruct (assoc "path" props) as [p|]; [|by rewrite andb_false_r in H].
  destruct (assoc "value" props) as [x|]; [|by rewrite !andb_false_r in H].
  rewrite !orb_false_r, !andb_true_r in *.
  apply andb_prop in H as [_ [Hp Hx]%andb_prop]. by rewrite Hp, Hx.
Qed.

Lemma X6_node_is_serializable_witness :
  admits (TRef "JsonEditorSerializableNode") sample_node.
Proof.
  apply X6_node_is_serializable. exists 10. reflexivity.
Defined.

(** Values admitted one by one are admitted with one common fuel. *)
Lemma admits_common_fuel (t : ty) (l : list jsval) :
  Forall (admits t) l → ∃ n, forallb (fun x => conforms n x t) l = true.
Proof.
  induction 1 as [|x l [n Hx] _ [m Hl]]; [by exists 0|].
  exists (n `max` m). simpl. apply andb_true_intro. split.
  - eapply conforms_mono; [|exact Hx]. lia.
  - revert Hl. apply forallb_impl. intros y. apply conforms_mono. lia.
Qed.

Lemma optional_string fuel x :
  conforms fuel x TString || (true && is_undefined x) = true →
  x = JUndefined ∨ ∃ s, x = JStr s.
Proof.
  intros [H|H]%orb_prop.
  - right. by eapply conforms_string.
  - left. by apply is_undefined_true.
Qed.

Lemma conforms_menu_item fuel v :
  conforms fuel v (TRef "JsonEditorContextMenuItem") = true →
  is_separator v ∨ is_button v.
Proof.
  destruct fuel as [|[|[|[|fuel]]]]; try done. simpl.
  rewrite orb_false_r. intros [H|H]%orb_prop.
  - left. destruct v; try done. exists props. split; [done|].
    destruct (assoc "type" props) as [x|]; [|done].
    rewrite andb_true_r, orb_false_r in H.
    destruct fuel; [done|]. simpl in H.
    destruct x; try done. by apply String.eqb_eq in H as ->.
  - right. destruct v; try done.
    apply andb_prop in H as [Ht H]. apply andb_prop in H as [Hst H].
    apply andb_prop in H as [Hc H]. apply andb_prop in H as [Hx H].
    apply andb_prop in H as [Hsub H]. apply andb_prop in H as [Hclick _].
    destruct (assoc "className" props) as [cls|] eqn:Hcls; [|done].
    destruct (assoc "text" props) as [txt|] eqn:Htxt; [|done].
    rewrite orb_false_r in Hc, Hx.
    apply conforms_string in Hc as [c ->]. apply conforms_string in Hx as [x ->].
    exists props, c, x. repeat (split; [done|]).
    split; [|split; [|split]].
    + intros y Hy. rewrite Hy in Ht. by eapply optional_string.
    + intros y Hy. rewrite Hy in Hst. by eapply optional_string.
    + intros y Hy. rewrite Hy in Hsub.
      apply orb_prop in Hsub as [Hs|Hs]; [|left; by apply is_undefined_true].
      right. destruct fuel; [done|]. simpl in Hs. destruct y; try done.
      exists elems. split; [done|]. eapply forallb_Forall; [|exact Hs].
      intros z Hz. by exists fuel.
    + intros y Hy. rewrite Hy in Hclick.
      apply orb_prop in Hclick as [Hs|Hs]; [|left; by apply is_undefined_true].
      right. destruct fuel; [done|]. simpl in Hs. destruct y; try done. eauto.
Qed.

Lemma separator_admitted v :
  is_separator v → admits (TRef "JsonEditorContextMenuItem") v.
Proof.
  intros (props & -> & Ht). exists 5. simpl. by rewrite Ht.
Qed.

Lemma button_admitted v :
  is_button v → admits (TRef "JsonEditorContextMenuItem") v.
Proof.
  intros (props & cls & txt & -> & Hcls & Htxt & Ht & Hst & Hsub & Hclick).
  assert (∃ n, ∀ x, assoc "submenu" props = Some x →
                    x = JUndefined ∨
                    conforms (S n) x (TArray (TRef "JsonEditorContextMenuItem"))
                    = true) as [n Hn].
  { destruct (assoc "submenu" props) as [x|]; [|by exists 0].
    destruct (Hsub x eq_refl) as [->|(items & -> & Hall)].
    - exists 0. intros ? [= <-]. by left.
    - apply admits_common_fuel in Hall as [n Hall].
      exists n. intros ? [= <-]. by right. }
  exists (S (S (S (S (S n))))). simpl. rewrite Hcls, Htxt. simpl.
  apply orb_true_iff. right. rewrite orb_false_r.
  repeat (apply andb_true_intro; split); try done.
  - destruct (assoc "title" props) as [x|]; [|done].
    by destruct (Ht x eq_refl) as [->|[s ->]].
  - destruct (assoc "submenuTitle" props) as [x|]; [|done].
    by destruct (Hst x eq_refl) as [->|[s ->]].
  - destruct (assoc "submenu" props) as [x|]; [|done].
    destruct (Hn x eq_refl) as [->|Hx]; [done|].
    simpl in Hx. by rewrite Hx.
  - destruct (assoc "click" props) as [x|]; [|done].
    by destruct (Hclick x eq_refl) as [->|[f ->]].
Qed.

(** X7.  The exact shape of a context-menu item: a value is admitted by
    [JsonEditorContextMenuItem] if and only if it is a separator (an
    object whose [type] is ['separator']) or a button: an object with
    strings [className] and [text] whose [title], [submenuTitle],
    [submenu] and [click] may each be left out or [undefined], and whose
    [submenu], when given, is an array of items that are admitted in
    turn. *)
Theorem X7_context_menu_item_shape (v : jsval) :
  admits (TRef "JsonEditorContextMenuItem") v ↔ is_separator v ∨ is_button v.
Proof.
  split.
  - intros [fuel H]. by eapply conforms_menu_item.
  - intros [H|H]; [by apply separator_admitted | by apply button_admitted].
Qed.

Lemma X7_context_menu_item_witness :
  is_separator sample_button ∨ is_button sample_button.
Proof.
  apply X7_context_menu_item_shape. exists 10. reflexivity.
Defined.

Lemma conforms_query_options fuel (f s p : option jsval) :
  conforms (S (S fuel)) (query_options f s p) (TRef "JsonEditorQueryOptions")
  = part_ok fuel (query_part "filter") f
    && (part_ok fuel (query_part "sort") s
        && (part_ok fuel (query_part "projection") p && true)).
Proof. destruct f, s, p; reflexivity. Qed.

Lemma part_ok_admits fuel t part :
  part_ok fuel t part = true →
  ∀ x, part = Some x → x = JUndefined ∨ admits t x.
Proof.
  intros H x ->. simpl in H. apply orb_prop in H as [H|H].
  - right. by exists fuel.
  - left. by apply is_undefined_true.
Qed.

Lemma admits_part_ok t part :
  (∀ x, part = Some x → x = JUndefined ∨ admits t x) →
  ∃ n, ∀ m, (n ≤ m)%nat → part_ok m t part = true.
Proof.
  intros H. destruct part as [x|]; [|by exists 0].
  destruct (H x eq_refl) as [->|[n Hn]].
  - exists 0. intros m _. apply orb_true_r.
  - exists n. intros m Hm. simpl. by rewrite (conforms_mono n m _ _ Hm Hn).
Qed.

(** X8.  The three parts of the query options are independent: whichever
    of [filter], [sort] and [projection] are present, the options are
    admitted by [JsonEditorQueryOptions] if and only if each part that
    is present is [undefined] or admitted by its own declared type.  In
    particular the empty object is admitted. *)
Theorem X8_query_options_parts (f s p : option jsval) :
  admits (TRef "JsonEditorQueryOptions") (query_options f s p) ↔
  (∀ x, f = Some x → x = JUndefined ∨ admits (query_part "filter") x) ∧
  (∀ x, s = Some x → x = JUndefined ∨ admits (query_part "sort") x) ∧
  (∀ x, p = Some x → x = JUndefined ∨ admits (query_part "projection") x).
Proof.
  split.
  - intros [fuel H]. destruct fuel as [|[|fuel]]; [done| |].
    { by destruct f, s, p. }
    rewrite conforms_query_options in H.
    apply andb_prop in H as [Hf H]. apply andb_prop in H as [Hs H].
    apply andb_prop in H as [Hp _].
    split; [|split]; by eapply part_ok_admits.
  - intros (Hf & Hs & Hp).
    apply admits_part_ok in Hf as [a Ha].
    apply admits_part_ok in Hs as [b Hb].
    apply admits_part_ok in Hp as [c Hc].
    exists (S (S (Nat.max a (Nat.max b c)))).
    rewrite conforms_query_options, Ha, Hb, Hc by lia. done.
Qed.

Lemma X8_query_options_witness :
  admits (TRef "JsonEditorQueryOptions") (query_options (Some sample_filter) None None) ∧
  admits (TRef "JsonEditorQueryOptions") (query_options None None None).
Proof.
  split; apply X8_query_options_parts.
  - split; [|split]; try discriminate.
    intros x [= <-]. right. exists 5. reflexivity.
  - split; [|split]; discriminate.
Defined.

(** X9.  What one callback returns another accepts: whatever
    [onValidate] may return, be it an array or a promise, the array (the
    one returned, or the one the promise is fulfilled with) is admitted
    as the [errors] argument of [onValidationError]; and whatever
    [createQuery] may return is admitted as the [query] argument of
    [executeQuery]. *)
Theorem X9_callbacks_compose (v : jsval) :
  (return_admits "onValidate" v →
     (∀ errs, v = JArr errs → param_admits "onValidationError" "errors" v) ∧
     (∀ x, v = JPromise (Some x) →
           param_admits "onValidationError" "errors" x)) ∧
  (return_admits "createQuery" v → param_admits "executeQuery" "query" v).
Proof.
  split.
  - intros (r & [= <-] & fuel & H).
    destruct fuel as [|fuel]; [done|]. simpl in H. rewrite orb_false_r in H.
    split.
    + intros errs ->. do 2 eexists. split; [reflexivity|].
      split; [reflexivity|].
      apply orb_prop in H as [H|H]; [by exists fuel|]. by destruct fuel.
    + intros x ->. do 2 eexists. split; [reflexivity|].
      split; [reflexivity|].
      apply orb_prop in H as [H|H]; [by destruct fuel|].
      destruct fuel as [|fuel]; [done|]. by exists fuel.
  - intros (r & [= <-] & fuel & H). do 2 eexists.
    split; [reflexivity|]. split; [reflexivity|]. by exists fuel.
Qed.

Lemma X9_callbacks_compose_witness :
  param_admits "onValidationError" "errors" sample_errors ∧
  param_admits "executeQuery" "query" (JStr "[*]").
Proof.
  split.
  - apply (X9_callbacks_compose sample_errors) with (errs :=
      [ JObj [ ("path", JArr [JStr "a"; JStr "b"]);
               ("message", JStr "required") ] ]); [|reflexivity].
    eexists. split; [reflexivity|]. exists 10. reflexivity.
  - apply (X9_callbacks_compose (JStr "[*]")).
    eexists. split; [reflexivity|]. exists 1. reflexivity.
Defined.

Lemma mode_name_conforms fuel (m : EditorMode) :
  conforms (S (S (S fuel))) (JStr (mode_name m)) (TRef "JsonEditorMode") = true.
Proof. by destruct m. Qed.

(** X10.  The modes offered and the mode shown are of one kind.  Every
    list of editor modes is admitted as the member [modes], the empty
    list included; and every entry of any admitted value of [modes] is
    one of the six mode names, hence admitted as the member [mode] and as
    both arguments of [onModeChange]. *)
Theorem X10_modes_entries (v : jsval) :
  (∀ ms : list EditorMode,
     admits (TArray (TRef "JsonEditorMode"))
            (JArr (map (fun m => JStr (mode_name m)) ms))) ∧
  member_type "modes" = Some (TArray (TRef "JsonEditorMode")) ∧
  (admits (TArray (TRef "JsonEditorMode")) v →
   ∃ entries, v = JArr entries ∧
     Forall (fun x => (∃ m, x = JStr (mode_name m)) ∧
                      admits (TRef "JsonEditorMode") x ∧
                      param_admits "onModeChange" "newMode" x ∧
                      param_admits "onModeChange" "oldMode" x) entries).
Proof.
  split; [|split; [reflexivity|]].
  - intros ms. exists 4. cbn [conforms]. apply forallb_forall.
    intros x [m [<- _]]%in_map_iff. exact (mode_name_conforms 0 m).
  - intros [fuel H]. destruct fuel as [|fuel]; [done|]. cbn [conforms] in H.
    destruct v; try done. exists elems. split; [done|].
    eapply forallb_Forall; [|exact H]. intros x Hx.
    assert (Hadm : admits (TRef "JsonEditorMode") x).
    { exists fuel. exact Hx. }
    split; [exact (conforms_mode _ _ Hx)|]. split; [exact Hadm|].
    split; (do 2 eexists; split; [reflexivity|]; split; [reflexivity|exact Hadm]).
Qed.

Lemma X10_modes_entries_witness :
  ∃ entries, JArr [JStr "code"; JStr "tree"] = JArr entries ∧
     Forall (fun x => (∃ m, x = JStr (mode_name m)) ∧
                      admits (TRef "JsonEditorMode") x ∧
                      param_admits "onModeChange" "newMode" x ∧
                      param_admits "onModeChange" "oldMode" x) entries.
Proof.
  apply (X10_modes_entries (JArr [JStr "code"; JStr "tree"])).
  exists 4. reflexivity.
Defined.

(** X11.  The members declared with a union, value by value:
    [timestampTag] holds exactly the booleans and the functions;
    [timestampFormat] returns exactly the strings and [null]; and
    [onEditable] returns exactly the booleans and the objects whose
    [field] and [value] are both booleans. *)
Theorem X11_union_members (v : jsval) :
  (member_admits "timestampTag" v ↔ (∃ b, v = JBool b) ∨ (∃ f, v = JFun f)) ∧
  (return_admits "timestampFormat" v ↔ v = JNull ∨ ∃ s, v = JStr s) ∧
  (return_admits "onEditable" v ↔
     (∃ b, v = JBool b) ∨
     (∃ props bf bv, v = JObj props ∧
                     assoc "field" props = Some (JBool bf) ∧
                     assoc "value" props = Some (JBool bv))).
Proof.
  split; [|split]; split.
  - intros (t & [= <-] & fuel & H).
    destruct fuel as [|[|fuel]]; [done|done|]. simpl in H.
    destruct v; try done; eauto.
  - intros [[b ->]|[f ->]]; (eexists; split; [reflexivity|]); by exists 2.
  - intros (r & [= <-] & fuel & H).
    destruct fuel as [|[|fuel]]; [done|done|]. simpl in H.
    destruct v; try done; eauto.
  - intros [->|[s ->]]; (eexists; split; [reflexivity|]); by exists 2.
  - intros (r & [= <-] & fuel & H).
    destruct fuel as [|[|fuel]]; [done|done|]. simpl in H.
    destruct v; try done; [left; eauto|right].
    rewrite orb_false_r in H.
    apply andb_prop in H as [Hf H]. apply andb_prop in H as [Hv _].
    destruct (assoc "field" props) as [x|] eqn:Ex; [|done].
    destruct (assoc "value" props) as [y|] eqn:Ey; [|done].
    rewrite orb_false_r in Hf, Hv.
    destruct fuel; [done|]. simpl in Hf, Hv.
    destruct x as [| |bf| | | | | | |]; try done.
    destruct y as [| |bv| | | | | | |]; try done.
    by exists props, bf, bv.
  - intros [[b ->]|(props & bf & bv & -> & Hf & Hv)];
      (eexists; split; [reflexivity|]).
    + by exists 2.
    + exists 3. simpl. by rewrite Hf, Hv.
Qed.

Lemma X11_union_members_witness :
  JNull = JNull ∨ ∃ s, JNull = JStr s.
Proof.
  apply (X11_union_members JNull).
  eexists. split; [reflexivity|]. exists 2. reflexivity.
Defined.
